(** * Interactions service: a shallow embedding of [main.py]

    The service is a FastAPI application over one SQLAlchemy table.  The
    table is modelled as the list of its rows in storage order, the SQL
    statements the handlers build are modelled by the storage functions of
    [Module sql], and every handler is a function from the table before the
    request to its outcome and the table after it.

    Two values come from the environment and are passed in explicitly: the
    sixteen bytes [os.urandom] hands to [uuid.uuid4] (as the 128-bit integer
    they denote) and the reading of [datetime.utcnow].  An exception that no
    handler catches ends the request; the table keeps what was committed.

    The store itself is the [engine] that [create_engine(DATABASE_URL)]
    names; of it the model keeps which integers its INTEGER column type
    holds, since an UPDATE that writes any other is refused.

    Columns hold what the service writes to them: strings, integers of the
    engine's range, booleans and time stamps, none of them NULL. *)

From Stdlib Require Import String Ascii.
From stdpp Require Import base numbers list strings.

Open Scope Z_scope.

(** ** [uuid.uuid4] and [str] of a UUID (CPython's [uuid] module) *)

Module uuid.

(** [UUID.__init__(bytes=..., version=4)]: the variant and version bits
    are forced on the 128-bit integer.
<<
    int &= ~(0xc000 << 48);  int |= 0x8000 << 48
    int &= ~(0xf000 << 64);  int |= version << 76
>> *)
Definition UUID (int version : Z) : Z :=
  let int := Z.land int (Z.lnot (Z.shiftl 0xc000 48)) in
  let int := Z.lor int (Z.shiftl 0x8000 48) in
  let int := Z.land int (Z.lnot (Z.shiftl 0xf000 64)) in
  Z.lor int (Z.shiftl version 76).

(** [uuid4()] is [UUID(bytes=os.urandom(16), version=4)]. *)
Definition uuid4 (urandom : Z) : Z := UUID urandom 4.

Definition hexdigits : list ascii := list_ascii_of_string "0123456789abcdef".

Definition hex_digit (d : Z) : ascii := nth (Z.to_nat d) hexdigits "0"%char.

(** ['%0nx' % v] for a value of at most [n] hex digits (a UUID's integer has
    128 bits, so [n = 32] covers it): most significant digit first. *)
Fixpoint hex_fixed (n : nat) (v : Z) : list ascii :=
  match n with
  | O => []
  | S k => hex_fixed k (v / 16) ++ [hex_digit (v mod 16)]
  end.

(** [UUID.__str__]:
<<
    hex = '%032x' % self.int
    return '%s-%s-%s-%s-%s' % (hex[:8], hex[8:12], hex[12:16], hex[16:20], hex[20:])
>> *)
Definition str (int : Z) : string :=
  let hex := hex_fixed 32 int in
  let dash := "-"%char in
  string_of_list_ascii
    (take 8 hex ++ dash :: take 4 (drop 8 hex) ++ dash :: take 4 (drop 12 hex)
       ++ dash :: take 4 (drop 16 hex) ++ dash :: drop 20 hex).

End uuid.

(** ** Data model *)

(** [datetime]: a naive UTC instant, in microseconds since the epoch. *)
Definition datetime := Z.

(** A row of the [interactions] table, which is also the response model
    [Interaction]. *)
Record Interaction := {
  interaction_id : string;
  user_query : string;
  bot_response : string;
  feedback : Z;
  timestamp : datetime;
  processed_for_training : bool
}.

#[global] Instance Interaction_eq_dec : EqDecision Interaction.
Proof. solve_decision. Defined.

(** Request bodies. *)
Record InteractionCreate := {
  ic_user_query : string;
  ic_bot_response : string
}.

Record FeedbackUpdate := { feedback_score : Z }.

Record ProcessedUpdate := { pu_processed_for_training : bool }.

(** The table: its rows, in storage order. *)
Abbreviation Table := (list Interaction).

Definition primary_keys (tb : Table) : list string := interaction_id <$> tb.

(** The primary-key constraint of the [interaction_id] column. *)
Definition pk_unique (tb : Table) : Prop := NoDup (primary_keys tb).

(** [engine = create_engine(DATABASE_URL)]: the backing store, chosen by the
    environment.  [Column('feedback', Integer)] is a bounded SQL integer on
    every engine; [Integer_holds] tells which values it takes (the column
    default 0, which is all an INSERT of the service writes there, is one
    of them on each). *)
Record Engine := { Integer_holds : Z -> bool }.

(** PostgreSQL: INTEGER has 32 bits. *)
Definition postgresql : Engine :=
  {| Integer_holds := fun v => bool_decide (- 2 ^ 31 <= v < 2 ^ 31) |}.

(** SQLite: INTEGER has 64 bits. *)
Definition sqlite : Engine :=
  {| Integer_holds := fun v => bool_decide (- 2 ^ 63 <= v < 2 ^ 63) |}.

(** ** Outcomes *)

(** [OutOfRange] stands for what the engine or its driver raises on an
    integer the column cannot take (PostgreSQL: integer out of range;
    SQLite: the driver's OverflowError at bind). *)
Inductive Exception :=
| HTTPException (status_code : Z) (detail : string)
| IntegrityError
| OutOfRange.

Inductive result (A : Type) :=
| Return (a : A)
| Raise (e : Exception).
Arguments Return {A} a.
Arguments Raise {A} e.

(** The status of the HTTP response: 200 for a returned body, the code of an
    [HTTPException], 500 for any other exception. *)
Definition status {A} (r : result A) : Z :=
  match r with
  | Return _ => 200
  | Raise (HTTPException c _) => c
  | Raise IntegrityError => 500
  | Raise OutOfRange => 500
  end.

(** ** The storage engine: the statements the handlers build *)

Module sql.

(** [interactions.c.<column> == value] *)
Inductive clause :=
| interaction_id_eq (v : string)
| feedback_eq (v : Z)
| processed_for_training_eq (v : bool).

Definition holds (c : clause) (r : Interaction) : bool :=
  match c with
  | interaction_id_eq v => bool_decide (interaction_id r = v)
  | feedback_eq v => bool_decide (feedback r = v)
  | processed_for_training_eq v => bool_decide (processed_for_training r = v)
  end.

(** [interactions.select()] with the clauses added by [.where(...)];
    successive [where] calls are joined by AND. *)
Record Select := { whereclause : list clause }.

Definition select : Select := {| whereclause := [] |}.

Definition where_ (q : Select) (c : clause) : Select :=
  {| whereclause := whereclause q ++ [c] |}.

Definition matches (q : Select) (r : Interaction) : bool :=
  forallb (fun c => holds c r) (whereclause q).

(** [connection.execute(query).fetchall()] *)
Definition fetchall (tb : Table) (q : Select) : list Interaction :=
  List.filter (matches q) tb.

(** [.first()]: the first row of a result, or [None]. *)
Definition first (rows : list Interaction) : option Interaction := head rows.

(** [.values(column=value)] of an UPDATE. *)
Inductive values :=
| set_feedback (v : Z)
| set_processed_for_training (v : bool).

Definition assign (a : values) (r : Interaction) : Interaction :=
  match a with
  | set_feedback v =>
      {| interaction_id := interaction_id r; user_query := user_query r;
         bot_response := bot_response r; feedback := v;
         timestamp := timestamp r;
         processed_for_training := processed_for_training r |}
  | set_processed_for_training v =>
      {| interaction_id := interaction_id r; user_query := user_query r;
         bot_response := bot_response r; feedback := feedback r;
         timestamp := timestamp r;
         processed_for_training := v |}
  end.

(** Every row the clause selects is rewritten in place; the rewritten rows
    are what RETURNING yields. *)
Fixpoint rewrite_rows (tb : Table) (c : clause) (a : values)
  : Table * list Interaction :=
  match tb with
  | [] => ([], [])
  | r :: rest =>
      let '(rest', returning) := rewrite_rows rest c a in
      if holds c r
      then (assign a r :: rest', assign a r :: returning)
      else (r :: rest', returning)
  end.

(** The value of an UPDATE is one the column can take. *)
Definition storable (engine : Engine) (a : values) : bool :=
  match a with
  | set_feedback v => Integer_holds engine v
  | set_processed_for_training _ => true
  end.

(** [interactions.update().where(c).values(a).returning(interactions)],
    executed: the value is bound first, and a value the column cannot take
    ends the statement with an exception before any row is looked at. *)
Definition update (engine : Engine) (tb : Table) (c : clause) (a : values)
  : result (Table * list Interaction) :=
  if storable engine a
  then Return (rewrite_rows tb c a)
  else Raise OutOfRange.

(** [interactions.insert().values(...)]: the columns left out take their
    declared defaults ([feedback] 0, [processed_for_training] False); a row
    whose primary key is already stored is refused. *)
Definition insert (tb : Table) (interaction_id user_query bot_response : string)
    (timestamp : datetime) : result Table :=
  if bool_decide (interaction_id ∈ primary_keys tb)
  then Raise IntegrityError
  else Return (tb ++ [{| interaction_id := interaction_id;
                         user_query := user_query;
                         bot_response := bot_response;
                         feedback := 0;
                         timestamp := timestamp;
                         processed_for_training := false |}]).

End sql.

(** ** The four handlers *)

Section service.

(** The module's global [engine]. *)
Variable engine : Engine.

(** First [with] block of [create_interaction]: a fresh id, the INSERT and
    its commit.  Returns the id and the table after the commit. *)
Definition create_interaction_insert (tb : Table) (urandom : Z) (utcnow : datetime)
    (interaction : InteractionCreate) : result (string * Table) :=
  let interaction_id := uuid.str (uuid.uuid4 urandom) in
  match sql.insert tb interaction_id (ic_user_query interaction)
          (ic_bot_response interaction) utcnow with
  | Return tb' => Return (interaction_id, tb')
  | Raise e => Raise e
  end.

(** Second [with] block: the row is read back by its id on a new connection;
    [if result] holds for every row found, as a row of six columns is never
    empty. *)
Definition create_interaction_fetch (tb : Table) (interaction_id : string)
    : result Interaction :=
  let select_query := sql.where_ sql.select (sql.interaction_id_eq interaction_id) in
  match sql.first (sql.fetchall tb select_query) with
  | Some result => Return result
  | None => Raise (HTTPException 500 "Failed to create or retrieve interaction.")
  end.

(** [POST /interactions].  The INSERT and the read-back run on two
    connections, each with its own transaction: [others] stands for what
    other clients of the database commit between the two. *)
Definition create_interaction_amid (others : Table -> Table) (tb : Table)
    (urandom : Z) (utcnow : datetime) (interaction : InteractionCreate)
    : result Interaction * Table :=
  match create_interaction_insert tb urandom utcnow interaction with
  | Return (interaction_id, tb') =>
      (create_interaction_fetch (others tb') interaction_id, others tb')
  | Raise e => (Raise e, tb)
  end.

(** [POST /interactions] with no other client writing in between. *)
Definition create_interaction (tb : Table) (urandom : Z) (utcnow : datetime)
    (interaction : InteractionCreate) : result Interaction * Table :=
  create_interaction_amid (fun tb' => tb') tb urandom utcnow interaction.

(** [GET /interactions] *)
Definition get_interactions (tb : Table) (feedback : option Z)
    (processed_for_training : option bool) : result (list Interaction) :=
  let query := sql.select in
  let query :=
    match feedback with
    | Some v => sql.where_ query (sql.feedback_eq v)
    | None => query
    end in
  let query :=
    match processed_for_training with
    | Some v => sql.where_ query (sql.processed_for_training_eq v)
    | None => query
    end in
  Return (sql.fetchall tb query).

(** [PATCH /interactions/{interaction_id}/feedback] *)
Definition update_feedback (tb : Table) (interaction_id : string)
    (feedback_update : FeedbackUpdate) : result Interaction * Table :=
  match sql.update engine tb (sql.interaction_id_eq interaction_id)
          (sql.set_feedback (feedback_score feedback_update)) with
  | Return (tb', returning) =>
      match sql.first returning with
      | Some result => (Return result, tb')
      | None => (Raise (HTTPException 404 "Interaction not found."), tb')
      end
  | Raise e => (Raise e, tb)
  end.

(** [PATCH /interactions/{interaction_id}/processed] *)
Definition mark_as_processed (tb : Table) (interaction_id : string)
    (processed_update : ProcessedUpdate) : result Interaction * Table :=
  match sql.update engine tb (sql.interaction_id_eq interaction_id)
          (sql.set_processed_for_training
             (pu_processed_for_training processed_update)) with
  | Return (tb', returning) =>
      match sql.first returning with
      | Some result => (Return result, tb')
      | None => (Raise (HTTPException 404 "Interaction not found."), tb')
      end
  | Raise e => (Raise e, tb)
  end.

(** ** The application: requests served one after the other *)

Inductive request :=
| POST_interactions (urandom : Z) (utcnow : datetime) (body : InteractionCreate)
| GET_interactions (feedback : option Z) (processed_for_training : option bool)
| PATCH_feedback (interaction_id : string) (body : FeedbackUpdate)
| PATCH_processed (interaction_id : string) (body : ProcessedUpdate).

Inductive body :=
| one (r : Interaction)
| many (l : list Interaction).

Definition response := result body.

Definition respond {A} (f : A -> body) (r : result A) : response :=
  match r with
  | Return a => Return (f a)
  | Raise e => Raise e
  end.

(** Routing of a request to its handler. *)
Definition app (tb : Table) (rq : request) : response * Table :=
  match rq with
  | POST_interactions urandom utcnow interaction =>
      let '(r, tb') := create_interaction tb urandom utcnow interaction in
      (respond one r, tb')
  | GET_interactions feedback processed_for_training =>
      (respond many (get_interactions tb feedback processed_for_training), tb)
  | PATCH_feedback interaction_id feedback_update =>
      let '(r, tb') := update_feedback tb interaction_id feedback_update in
      (respond one r, tb')
  | PATCH_processed interaction_id processed_update =>
      let '(r, tb') := mark_as_processed tb interaction_id processed_update in
      (respond one r, tb')
  end.

(** The table after a sequence of requests. *)
Definition serve (tb : Table) (rqs : list request) : Table :=
  foldl (fun t rq => (app t rq).2) tb rqs.

(** The ids [uuid4] produced while a sequence of requests was served. *)
Definition generated_ids (rqs : list request) : list string :=
  omap (fun rq =>
          match rq with
          | POST_interactions urandom _ _ => Some (uuid.str (uuid.uuid4 urandom))
          | _ => None
          end) rqs.

(** ** The specification's words, to compare the handlers with *)

(** A record passes the filters of a list request: each filter that is
    present is an exact match on its column, an absent one asks nothing. *)
Definition passes (feedback_filter : option Z) (processed_filter : option bool)
    (r : Interaction) : Prop :=
  match feedback_filter with Some v => feedback r = v | None => True end
  /\ match processed_filter with
     | Some v => processed_for_training r = v
     | None => True
     end.

#[global] Instance passes_dec ff pf r : Decision (passes ff pf r).
Proof. unfold passes. destruct ff, pf; apply _. Defined.

(** Two records agree on every field that no operation may change. *)
Definition same_identity (r r' : Interaction) : Prop :=
  interaction_id r' = interaction_id r
  /\ user_query r' = user_query r
  /\ bot_response r' = bot_response r
  /\ timestamp r' = timestamp r.

(** The record a create request asks for. *)
Definition created (interaction_id : string) (utcnow : datetime)
    (interaction : InteractionCreate) : Interaction :=
  {| interaction_id := interaction_id;
     user_query := ic_user_query interaction;
     bot_response := ic_bot_response interaction;
     feedback := 0;
     timestamp := utcnow;
     processed_for_training := false |}.

(** ** The scenario of the specification, evaluated *)

Definition hi_hello : InteractionCreate :=
  {| ic_user_query := "hi"; ic_bot_response := "hello" |}.

Definition hi_hello_id : string := "00000000-0000-4000-8000-00000000002a".

Definition hi_hello_row : Interaction :=
  {| interaction_id := hi_hello_id;
     user_query := "hi"; bot_response := "hello"; feedback := 0;
     timestamp := 1700000000000000; processed_for_training := false |}.

(** A second record, and a short history of requests whose second create
    draws the random bytes of the first again. *)
Definition thanks_welcome : InteractionCreate :=
  {| ic_user_query := "thanks"; ic_bot_response := "welcome" |}.

Definition thanks_welcome_row : Interaction :=
  {| interaction_id := "00000000-0000-4000-8000-00000000002b";
     user_query := "thanks"; bot_response := "welcome"; feedback := 0;
     timestamp := 1700000000000007; processed_for_training := false |}.

Definition history : list request :=
  [ POST_interactions 42 1700000000000000 hi_hello;
    PATCH_feedback hi_hello_id {| feedback_score := 5 |};
    POST_interactions 42 1700000000000003 thanks_welcome;
    GET_interactions (Some 5) None ].

Example uuid4_str_42 :
  uuid.str (uuid.uuid4 42) = "00000000-0000-4000-8000-00000000002a".
Proof. reflexivity. Qed.

Example uuid4_str_all_ones :
  uuid.str (uuid.uuid4 (2 ^ 128 - 1)) = "ffffffff-ffff-4fff-bfff-ffffffffffff".
Proof. reflexivity. Qed.

Example scenario_create :
  create_interaction [] 42 1700000000000000 hi_hello
  = (Return hi_hello_row, [hi_hello_row]).
Proof. reflexivity. Qed.

Example scenario_list :
  get_interactions [sql.assign (sql.set_feedback 5) hi_hello_row] (Some 5) None
  = Return [sql.assign (sql.set_feedback 5) hi_hello_row].
Proof. reflexivity. Qed.

Example scenario_collision :
  create_interaction [hi_hello_row] 42 1700000000000001 hi_hello
  = (Raise IntegrityError, [hi_hello_row]).
Proof. reflexivity. Qed.

(** ** Facts about the UUID text *)

Lemma length_string_of_list_ascii (l : list ascii) :
  String.length (string_of_list_ascii l) = length l.
Proof. induction l as [|c l IH]; simpl; [reflexivity | now rewrite IH]. Qed.

Lemma hex_fixed_length (n : nat) : forall v, length (uuid.hex_fixed n v) = n.
Proof.
  induction n as [|n IH]; intros v; simpl; [reflexivity|].
  rewrite length_app, IH. simpl. lia.
Qed.

Lemma uuid_str_length (v : Z) : String.length (uuid.str v) = 36%nat.
Proof.
  unfold uuid.str. rewrite length_string_of_list_ascii.
  repeat (rewrite ?length_app, ?length_cons, ?length_take, ?length_drop,
           ?hex_fixed_length).
  reflexivity.
Qed.


(** ** Facts about the storage engine *)

Section storage.

Implicit Types (tb : Table) (r : Interaction) (c : sql.clause) (a : sql.values).

#[local] Arguments sql.holds : simpl never.
#[local] Arguments sql.assign : simpl never.

Lemma assign_same_identity a r : same_identity r (sql.assign a r).
Proof. destruct a; repeat split. Qed.

Lemma assign_id a r : interaction_id (sql.assign a r) = interaction_id r.
Proof. now destruct a. Qed.

Lemma holds_id_eq r k :
  sql.holds (sql.interaction_id_eq k) r = true <-> interaction_id r = k.
Proof. unfold sql.holds. apply bool_decide_eq_true. Qed.

(** The UPDATE rewrites the selected rows where they stand. *)
Lemma update_table tb c a :
  (sql.rewrite_rows tb c a).1
  = (fun r => if sql.holds c r then sql.assign a r else r) <$> tb.
Proof.
  induction tb as [|r tb IH]; simpl; [reflexivity|].
  destruct (sql.rewrite_rows tb c a) as [tb' ret]; simpl in *.
  destruct (sql.holds c r); simpl; now rewrite IH.
Qed.

(** RETURNING yields the selected rows, rewritten. *)
Lemma update_returning tb c a :
  (sql.rewrite_rows tb c a).2 = sql.assign a <$> List.filter (sql.holds c) tb.
Proof.
  induction tb as [|r tb IH]; simpl; [reflexivity|].
  destruct (sql.rewrite_rows tb c a) as [tb' ret]; simpl in *.
  destruct (sql.holds c r); simpl; now rewrite IH.
Qed.

Lemma update_keys tb c a : primary_keys (sql.rewrite_rows tb c a).1 = primary_keys tb.
Proof.
  rewrite update_table. unfold primary_keys. rewrite <- list_fmap_compose.
  apply list_fmap_ext. intros i r _. simpl.
  destruct (sql.holds c r); [apply assign_id | reflexivity].
Qed.

Lemma update_lookup tb c a i :
  (sql.rewrite_rows tb c a).1 !! i
  = (fun r => if sql.holds c r then sql.assign a r else r) <$> tb !! i.
Proof. rewrite update_table. apply list_lookup_fmap. Qed.

(** No row carries the key: the selection is empty. *)
Lemma select_absent tb k :
  k ∉ primary_keys tb ->
  List.filter (sql.holds (sql.interaction_id_eq k)) tb = [].
Proof.
  induction tb as [|r tb IH]; intros Hk; [reflexivity|].
  unfold primary_keys in *. rewrite fmap_cons, not_elem_of_cons in Hk.
  destruct Hk as [Hne Hk]. cbn [List.filter].
  destruct (sql.holds _ r) eqn:E.
  - apply holds_id_eq in E. congruence.
  - now apply IH.
Qed.

Lemma select_absent_inv tb k :
  List.filter (sql.holds (sql.interaction_id_eq k)) tb = [] ->
  k ∉ primary_keys tb.
Proof.
  induction tb as [|r tb IH]; intros Hf.
  - apply not_elem_of_nil.
  - cbn [List.filter] in Hf. unfold primary_keys in *. rewrite fmap_cons.
    destruct (sql.holds _ r) eqn:E; [discriminate|].
    apply not_elem_of_cons. split; [|now apply IH].
    intros ->. apply Bool.not_true_iff_false in E. apply E.
    now apply holds_id_eq.
Qed.

(** Under the primary-key constraint a stored key selects its one row. *)
Lemma select_present tb r :
  pk_unique tb -> r ∈ tb ->
  List.filter (sql.holds (sql.interaction_id_eq (interaction_id r))) tb = [r].
Proof.
  unfold pk_unique, primary_keys.
  induction tb as [|r0 tb IH]; intros Hnd Hin; [now apply elem_of_nil in Hin|].
  rewrite fmap_cons, NoDup_cons in Hnd. destruct Hnd as [Hfresh Hnd].
  cbn [List.filter]. apply elem_of_cons in Hin as [<- | Hin].
  - replace (sql.holds _ r) with true
      by (symmetry; now apply holds_id_eq).
    f_equal. now apply select_absent.
  - destruct (sql.holds _ r0) eqn:E; [|now apply IH].
    apply holds_id_eq in E. exfalso. apply Hfresh. rewrite E.
    now apply list_elem_of_fmap_2.
Qed.

Lemma update_absent tb k a :
  k ∉ primary_keys tb -> sql.rewrite_rows tb (sql.interaction_id_eq k) a = (tb, []).
Proof.
  intros Hk. apply injective_projections.
  - rewrite update_table. cbn [fst]. rewrite <- (list_fmap_id tb) at 2.
    apply list_fmap_ext. intros i r Hi. cbv beta.
    destruct (sql.holds (sql.interaction_id_eq k) r) eqn:E; [|reflexivity].
    apply holds_id_eq in E. exfalso. apply Hk. rewrite <- E.
    apply list_elem_of_fmap_2. now apply list_elem_of_lookup_2 in Hi.
  - rewrite update_returning. simpl. now rewrite select_absent.
Qed.

(** Under the primary-key constraint the UPDATE of a stored key rewrites
    the one row that carries it. *)
Lemma update_present tb i r a :
  pk_unique tb -> tb !! i = Some r ->
  sql.rewrite_rows tb (sql.interaction_id_eq (interaction_id r)) a
  = (<[i := sql.assign a r]> tb, [sql.assign a r]).
Proof.
  intros Hnd Hi. apply injective_projections.
  - simpl. apply list_eq. intros j. rewrite update_lookup.
    destruct (decide (i = j)) as [<-|Hne].
    + rewrite list_lookup_insert_eq by now apply lookup_lt_Some in Hi.
      rewrite Hi. simpl. replace (sql.holds _ r) with true; [reflexivity|].
      symmetry. now apply holds_id_eq.
    + rewrite list_lookup_insert_ne by assumption.
      destruct (tb !! j) as [r'|] eqn:Hj; [|reflexivity]. simpl.
      destruct (sql.holds _ r') eqn:E; [|reflexivity].
      apply holds_id_eq in E. exfalso. apply Hne.
      apply (NoDup_lookup _ i j (interaction_id r) Hnd);
        unfold primary_keys; rewrite list_lookup_fmap.
      * now rewrite Hi.
      * rewrite Hj. simpl. now rewrite E.
  - simpl. rewrite update_returning.
    rewrite select_present; [reflexivity | assumption |].
    now apply list_elem_of_lookup_2 in Hi.
Qed.

Lemma insert_pk_unique tb k uq br ts tb' :
  pk_unique tb -> sql.insert tb k uq br ts = Return tb' -> pk_unique tb'.
Proof.
  unfold sql.insert, pk_unique, primary_keys. intros Hnd.
  case_bool_decide as Hk; [discriminate|]. intros [= <-].
  rewrite fmap_app. apply NoDup_app. repeat split.
  - assumption.
  - intros x Hx. simpl. rewrite list_elem_of_singleton. intros ->. now apply Hk.
  - simpl. apply NoDup_singleton.
Qed.

End storage.

(** ** Facts about the handlers *)

Section handlers.

Implicit Types (tb : Table) (r : Interaction) (k : string).

#[local] Arguments sql.holds : simpl never.
#[local] Arguments sql.assign : simpl never.

(** The select of [create_interaction] and the selection of the UPDATEs
    pick the same rows. *)
Lemma fetchall_by_id tb k :
  sql.fetchall tb (sql.where_ sql.select (sql.interaction_id_eq k))
  = List.filter (sql.holds (sql.interaction_id_eq k)) tb.
Proof.
  unfold sql.fetchall. apply List.filter_ext. intros r.
  unfold sql.matches. simpl. apply andb_true_r.
Qed.



(** The read-back of a row appended under a key that was not stored finds
    that row, whatever else the table holds. *)
Lemma create_interaction_fetch_appended tb r :
  interaction_id r ∉ primary_keys tb ->
  create_interaction_fetch (tb ++ [r]) (interaction_id r) = Return r.
Proof.
  intros Hk. unfold create_interaction_fetch.
  rewrite fetchall_by_id, List.filter_app, select_absent by assumption.
  cbn [List.filter app].
  replace (sql.holds _ r) with true by (symmetry; now apply holds_id_eq).
  reflexivity.
Qed.

(** The two courses of a create request. *)
Lemma create_interaction_fresh tb urandom utcnow interaction :
  let k := uuid.str (uuid.uuid4 urandom) in
  k ∉ primary_keys tb ->
  create_interaction tb urandom utcnow interaction
  = (Return (created k utcnow interaction), tb ++ [created k utcnow interaction]).
Proof.
  intros k Hk. unfold create_interaction, create_interaction_amid, create_interaction_insert,
    sql.insert.
  fold k. rewrite bool_decide_eq_false_2 by assumption.
  fold (created k utcnow interaction).
  pose proof (create_interaction_fetch_appended tb (created k utcnow interaction) Hk)
    as E.
  change (interaction_id (created k utcnow interaction)) with k in E.
  now rewrite E.
Qed.

Lemma create_interaction_collision tb urandom utcnow interaction :
  uuid.str (uuid.uuid4 urandom) ∈ primary_keys tb ->
  create_interaction tb urandom utcnow interaction = (Raise IntegrityError, tb).
Proof.
  intros Hk. unfold create_interaction, create_interaction_amid, create_interaction_insert,
    sql.insert.
  now rewrite bool_decide_eq_true_2 by assumption.
Qed.

(** Both PATCH handlers are the UPDATE followed by [first]; the feedback
    update is refused when the column cannot take the score. *)
Lemma update_feedback_unfold tb k fu :
  Integer_holds engine (feedback_score fu) = true ->
  update_feedback tb k fu
  = let u := sql.rewrite_rows tb (sql.interaction_id_eq k)
               (sql.set_feedback (feedback_score fu)) in
    (match sql.first u.2 with
     | Some result => Return result
     | None => Raise (HTTPException 404 "Interaction not found.")
     end, u.1).
Proof.
  intros Hfits. unfold update_feedback, sql.update, sql.storable. rewrite Hfits.
  destruct (sql.rewrite_rows _ _ _) as [tb' ret]. simpl.
  now destruct (sql.first ret).
Qed.

Lemma update_feedback_refused tb k fu :
  Integer_holds engine (feedback_score fu) = false ->
  update_feedback tb k fu = (Raise OutOfRange, tb).
Proof.
  intros Hfits. unfold update_feedback, sql.update, sql.storable.
  now rewrite Hfits.
Qed.

(** The table after a feedback update, refused or not. *)
Lemma update_feedback_table tb k fu :
  (update_feedback tb k fu).2
  = if Integer_holds engine (feedback_score fu)
    then (sql.rewrite_rows tb (sql.interaction_id_eq k)
            (sql.set_feedback (feedback_score fu))).1
    else tb.
Proof.
  destruct (Integer_holds engine (feedback_score fu)) eqn:Hfits.
  - now rewrite update_feedback_unfold.
  - now rewrite update_feedback_refused.
Qed.

Lemma mark_as_processed_unfold tb k pu :
  mark_as_processed tb k pu
  = let u := sql.rewrite_rows tb (sql.interaction_id_eq k)
               (sql.set_processed_for_training (pu_processed_for_training pu)) in
    (match sql.first u.2 with
     | Some result => Return result
     | None => Raise (HTTPException 404 "Interaction not found.")
     end, u.1).
Proof.
  unfold mark_as_processed, sql.update, sql.storable.
  destruct (sql.rewrite_rows _ _ _) as [tb' ret]. simpl.
  now destruct (sql.first ret).
Qed.

(** What a request does to the table: an UPDATE by key, an append, or
    nothing. *)
Lemma app_table tb rq :
  (exists k a, (app tb rq).2 = (sql.rewrite_rows tb (sql.interaction_id_eq k) a).1)
  \/ (exists r, (interaction_id r ∉ primary_keys tb) /\ (app tb rq).2 = tb ++ [r])
  \/ ((app tb rq).2 = tb).
Proof.
  destruct rq as [u now ci | ff pf | k fu | k pu]; simpl.
  - destruct (decide (uuid.str (uuid.uuid4 u) ∈ primary_keys tb)) as [Hin|Hout].
    + rewrite create_interaction_collision by assumption. now right; right.
    + rewrite create_interaction_fresh by assumption. right; left.
      eexists. split; [|reflexivity]. exact Hout.
  - now right; right.
  - destruct (Integer_holds engine (feedback_score fu)) eqn:Hfits.
    + left. exists k, (sql.set_feedback (feedback_score fu)).
      rewrite update_feedback_unfold by assumption. reflexivity.
    + right; right. now rewrite update_feedback_refused.
  - left. exists k, (sql.set_processed_for_training (pu_processed_for_training pu)).
    rewrite mark_as_processed_unfold. reflexivity.
Qed.

(** A stored row keeps its place and its identity through a request. *)
Lemma app_keeps_row tb rq i r :
  tb !! i = Some r ->
  exists r', (app tb rq).2 !! i = Some r' /\ same_identity r r'.
Proof.
  intros Hi. destruct (app_table tb rq) as [(k & a & ->) | [(r0 & _ & ->) | ->]].
  - rewrite update_lookup, Hi. simpl. eexists. split; [reflexivity|].
    destruct (sql.holds _ r); [apply assign_same_identity | now repeat split].
  - exists r. split; [|now repeat split]. now apply lookup_app_l_Some.
  - exists r. split; [assumption | now repeat split].
Qed.

Lemma app_pk_unique tb rq : pk_unique tb -> pk_unique (app tb rq).2.
Proof.
  intros Hnd. destruct (app_table tb rq) as [(k & a & ->) | [(r0 & Hk & ->) | ->]].
  - unfold pk_unique. now rewrite update_keys.
  - unfold pk_unique, primary_keys in *. rewrite fmap_app. apply NoDup_app.
    repeat split; [assumption | | apply NoDup_singleton].
    intros x Hx. simpl. rewrite list_elem_of_singleton. now intros ->.
  - assumption.
Qed.


Lemma serve_keeps_row rqs : forall tb i r,
  tb !! i = Some r ->
  exists r', serve tb rqs !! i = Some r' /\ same_identity r r'.
Proof.
  induction rqs as [|rq rqs IH]; intros tb i r Hi.
  - exists r. split; [assumption | now repeat split].
  - destruct (app_keeps_row tb rq i r Hi) as (r1 & Hi1 & S1).
    destruct (IH _ _ _ Hi1) as (r2 & Hi2 & S2).
    exists r2. split; [exact Hi2|].
    destruct S1 as (?&?&?&?), S2 as (?&?&?&?). repeat split; congruence.
Qed.

Lemma serve_keeps_key rqs tb k :
  k ∈ primary_keys tb -> k ∈ primary_keys (serve tb rqs).
Proof.
  unfold primary_keys. intros (r & -> & Hin)%list_elem_of_fmap.
  apply list_elem_of_lookup in Hin as [i Hi].
  destruct (serve_keeps_row rqs tb i r Hi) as (r' & Hi' & Hid & _).
  rewrite <- Hid. apply list_elem_of_fmap_2.
  now apply list_elem_of_lookup_2 in Hi'.
Qed.

Lemma serve_pk_unique rqs : forall tb, pk_unique tb -> pk_unique (serve tb rqs).
Proof.
  induction rqs as [|rq rqs IH]; intros tb Hnd; [assumption|].
  apply IH. now apply app_pk_unique.
Qed.


(** The list handler, in the specification's words. *)
Lemma get_interactions_passes tb ff pf :
  get_interactions tb ff pf = Return (filter (passes ff pf) tb).
Proof.
  unfold get_interactions, sql.fetchall. f_equal.
  induction tb as [|r tb IH]; [reflexivity|].
  cbn [List.filter]. rewrite filter_cons, IH.
  assert (sql.matches
            (match pf with
             | Some v =>
                 sql.where_ (match ff with
                             | Some v0 => sql.where_ sql.select (sql.feedback_eq v0)
                             | None => sql.select
                             end) (sql.processed_for_training_eq v)
             | None =>
                 match ff with
                 | Some v0 => sql.where_ sql.select (sql.feedback_eq v0)
                 | None => sql.select
                 end
             end) r = bool_decide (passes ff pf r)) as ->.
  { unfold passes, sql.matches, sql.holds.
    destruct ff as [v|], pf as [w|]; simpl;
      repeat case_bool_decide; simpl; try reflexivity; tauto. }
  now case_bool_decide; destruct (decide (passes ff pf r)).
Qed.

Lemma get_interactions_unfiltered tb : get_interactions tb None None = Return tb.
Proof.
  unfold get_interactions, sql.fetchall. f_equal.
  rewrite (List.filter_ext _ (fun _ => true)) by reflexivity.
  apply List.filter_true.
Qed.

End handlers.

(** ** The create operation *)



(** ** The list operation *)


(** C8.  A feedback filter of 0 is a filter like any other: it returns the
    records whose feedback is 0, while the absent filter returns the whole
    table, and there are tables on which the two differ. *)
Theorem get_interactions_feedback_zero_is_a_filter :
  (forall tb : Table,
      get_interactions tb (Some 0) None = Return (filter (fun r => feedback r = 0) tb)
      /\ get_interactions tb None None = Return tb)
  /\ (exists tb : Table,
        get_interactions tb (Some 0) None <> get_interactions tb None None).
Proof.
  split.
  - intros tb. split; [rewrite get_interactions_passes; f_equal|].
    + apply list_filter_iff. intros r. unfold passes. tauto.
    + apply get_interactions_unfiltered.
  - exists [sql.assign (sql.set_feedback 5) hi_hello_row]. discriminate.
Qed.


(** ** The two update operations *)

(** C3, amended.  For a stored id and any new score that the integer type
    of the feedback column holds, the feedback update returns the stored
    record with its feedback replaced by the score and every other field as
    it was; that record takes the place of the old one. *)
Theorem update_feedback_changes_only_feedback
    (tb : Table) (i : nat) (r : Interaction) (feedback_update : FeedbackUpdate) :
  pk_unique tb -> tb !! i = Some r ->
  Integer_holds engine (feedback_score feedback_update) = true ->
  exists r' tb',
    update_feedback tb (interaction_id r) feedback_update = (Return r', tb')
    /\ feedback r' = feedback_score feedback_update
    /\ interaction_id r' = interaction_id r
    /\ user_query r' = user_query r
    /\ bot_response r' = bot_response r
    /\ timestamp r' = timestamp r
    /\ processed_for_training r' = processed_for_training r
    /\ tb' = <[i := r']> tb.
Proof.
  intros Hnd Hi Hfits. rewrite update_feedback_unfold by assumption.
  rewrite (update_present tb i r _ Hnd Hi). cbn [fst snd sql.first head].
  eexists _, _. split; [reflexivity|]. now repeat split.
Qed.

(** C4, amended.  For an id that no stored record carries, the processed
    update ends in the 404 not-found error, and so does the feedback update
    whenever the integer type of the feedback column holds its score; either
    way the table after the request is the table before it. *)
Theorem update_unknown_id_not_found
    (tb : Table) (k : string) (feedback_update : FeedbackUpdate)
    (processed_update : ProcessedUpdate) :
  (k ∉ primary_keys tb) ->
  mark_as_processed tb k processed_update
  = (Raise (HTTPException 404 "Interaction not found."), tb)
  /\ status (mark_as_processed tb k processed_update).1 = 404
  /\ (update_feedback tb k feedback_update).2 = tb
  /\ (Integer_holds engine (feedback_score feedback_update) = true ->
      update_feedback tb k feedback_update
      = (Raise (HTTPException 404 "Interaction not found."), tb)
      /\ status (update_feedback tb k feedback_update).1 = 404).
Proof.
  intros Hk.
  assert (mark_as_processed tb k processed_update
          = (Raise (HTTPException 404 "Interaction not found."), tb)) as Em.
  { rewrite mark_as_processed_unfold. now rewrite update_absent by assumption. }
  split; [exact Em|]. split; [now rewrite Em|]. split.
  - rewrite update_feedback_table.
    destruct (Integer_holds engine _); [|reflexivity].
    now rewrite update_absent by assumption.
  - intros Hfits. rewrite update_feedback_unfold by assumption.
    rewrite update_absent by assumption. now split.
Qed.

(** C6.  For a stored id, the processed update replaces the record by one
    that differs from it in the flag [processed_for_training] alone, leaves
    every other row where it is, and, asked again with the same flag,
    returns the same record and leaves the table as the first call left
    it. *)
Theorem mark_as_processed_only_flag_idempotent
    (tb : Table) (i : nat) (r : Interaction) (processed_update : ProcessedUpdate) :
  pk_unique tb -> tb !! i = Some r ->
  let r' := {| interaction_id := interaction_id r;
               user_query := user_query r;
               bot_response := bot_response r;
               feedback := feedback r;
               timestamp := timestamp r;
               processed_for_training :=
                 pu_processed_for_training processed_update |} in
  mark_as_processed tb (interaction_id r) processed_update
  = (Return r', <[i := r']> tb)
  /\ mark_as_processed (<[i := r']> tb) (interaction_id r) processed_update
     = (Return r', <[i := r']> tb).
Proof.
  intros Hnd Hi r'.
  assert (mark_as_processed tb (interaction_id r) processed_update
          = (Return r', <[i := r']> tb)) as E1.
  { rewrite mark_as_processed_unfold.
    rewrite (update_present tb i r _ Hnd Hi). reflexivity. }
  split; [exact E1|].
  assert (pk_unique (<[i := r']> tb)) as Hnd'.
  { replace (<[i := r']> tb)
      with (mark_as_processed tb (interaction_id r) processed_update).2
      by now rewrite E1.
    rewrite mark_as_processed_unfold. unfold pk_unique. cbn [snd].
    now rewrite update_keys. }
  assert (<[i := r']> tb !! i = Some r') as Hi'.
  { apply list_lookup_insert_eq. now apply lookup_lt_Some in Hi. }
  rewrite mark_as_processed_unfold.
  change (interaction_id r) with (interaction_id r').
  rewrite (update_present _ i r' _ Hnd' Hi'). cbn [fst snd sql.first head].
  rewrite list_insert_insert_eq. reflexivity.
Qed.

(** C10.  Whatever the table, the target id and the new value, a stored
    record whose id is not the target is, after a feedback update and after
    a processed update, the record it was, at the place it was; the table
    keeps its length. *)
Theorem update_leaves_other_rows
    (tb : Table) (k : string) (feedback_update : FeedbackUpdate)
    (processed_update : ProcessedUpdate) (i : nat) (r : Interaction) :
  tb !! i = Some r -> interaction_id r <> k ->
  (update_feedback tb k feedback_update).2 !! i = Some r
  /\ (mark_as_processed tb k processed_update).2 !! i = Some r
  /\ length (update_feedback tb k feedback_update).2 = length tb
  /\ length (mark_as_processed tb k processed_update).2 = length tb.
Proof.
  intros Hi Hne. rewrite update_feedback_table, mark_as_processed_unfold.
  cbn [snd].
  assert (sql.holds (sql.interaction_id_eq k) r = false) as Hh.
  { apply Bool.not_true_iff_false. now rewrite holds_id_eq. }
  destruct (Integer_holds engine (feedback_score feedback_update));
    rewrite !update_lookup, !update_table, !length_fmap, Hi;
    cbn [fmap option_fmap option_map]; rewrite Hh; now repeat split.
Qed.

(** ** No record is ever removed *)

(** C7.  Through any sequence of requests, from any table: a record that is
    stored stays stored at its place, with the id, query, response and time
    stamp it had (feedback and flag may have changed), so that the stored
    ids only ever grow. *)
Theorem serve_never_deletes
    (tb : Table) (rqs : list request) (i : nat) (r : Interaction) :
  tb !! i = Some r ->
  (exists r', serve tb rqs !! i = Some r' /\ same_identity r r')
  /\ interaction_id r ∈ primary_keys (serve tb rqs)
  /\ (length tb <= length (serve tb rqs))%nat.
Proof.
  intros Hi. split; [now apply serve_keeps_row|]. split.
  - apply serve_keeps_key. unfold primary_keys. apply list_elem_of_fmap_2.
    now apply list_elem_of_lookup_2 in Hi.
  - destruct (Nat.le_gt_cases (length tb) (length (serve tb rqs)))
      as [Hle | Hgt]; [exact Hle|].
    destruct tb as [|r0 tb0]; [simpl; lia|].
    assert (exists x, (r0 :: tb0) !! (length tb0) = Some x) as [x Hx].
    { apply lookup_lt_is_Some. simpl. lia. }
    destruct (serve_keeps_row rqs _ _ _ Hx) as (x' & Hx' & _).
    apply lookup_lt_Some in Hx'. simpl in Hgt. lia.
Qed.

(** ** How the operations compose *)

Section composition.

Implicit Types (tb : Table) (r : Interaction) (k : string) (a : sql.values).

#[local] Arguments sql.holds : simpl never.
#[local] Arguments sql.assign : simpl never.

(** An UPDATE never rewrites the key, so it selects the same rows before and
    after another UPDATE. *)
Lemma holds_id_assign k a r :
  sql.holds (sql.interaction_id_eq k) (sql.assign a r)
  = sql.holds (sql.interaction_id_eq k) r.
Proof. unfold sql.holds. now rewrite assign_id. Qed.

Lemma assign_feedback_processed v w r :
  sql.assign (sql.set_processed_for_training w) (sql.assign (sql.set_feedback v) r)
  = sql.assign (sql.set_feedback v) (sql.assign (sql.set_processed_for_training w) r).
Proof. reflexivity. Qed.

(** A second UPDATE of the same rows whose value replaces the first one's
    gives what it would have given alone. *)
Lemma update_overwrite tb k a1 a2 :
  (forall r, sql.assign a2 (sql.assign a1 r) = sql.assign a2 r) ->
  sql.rewrite_rows (sql.rewrite_rows tb (sql.interaction_id_eq k) a1).1
    (sql.interaction_id_eq k) a2
  = sql.rewrite_rows tb (sql.interaction_id_eq k) a2.
Proof.
  intros Hov. induction tb as [|r tb IH]; [reflexivity|].
  cbn [sql.rewrite_rows].
  destruct (sql.rewrite_rows tb (sql.interaction_id_eq k) a1) as [t1 ret1].
  destruct (sql.rewrite_rows tb (sql.interaction_id_eq k) a2) as [t2 ret2].
  cbn [fst] in IH.
  destruct (sql.holds (sql.interaction_id_eq k) r) eqn:E; cbn [fst sql.rewrite_rows].
  - rewrite IH, holds_id_assign, E, Hov. reflexivity.
  - rewrite IH, E. reflexivity.
Qed.

(** A stored key is selected by the UPDATE: something is returned. *)
Lemma update_stored_returns tb k a :
  k ∈ primary_keys tb ->
  exists r rest,
    r ∈ tb /\ interaction_id r = k
    /\ (sql.rewrite_rows tb (sql.interaction_id_eq k) a).2 = sql.assign a r :: rest.
Proof.
  intros Hk. rewrite update_returning.
  destruct (List.filter (sql.holds (sql.interaction_id_eq k)) tb) as [|r l] eqn:E.
  - apply select_absent_inv in E. contradiction.
  - exists r, (sql.assign a <$> l). 
    assert (In r (List.filter (sql.holds (sql.interaction_id_eq k)) tb)) as Hin
      by (rewrite E; now left).
    apply List.filter_In in Hin as [Hin Hh].
    split; [now apply list_elem_of_In|]. split; [now apply holds_id_eq|].
    reflexivity.
Qed.

End composition.

(** X1.  Two create requests that both return a record, with any requests
    served in between, return records with different ids. *)
Theorem create_interaction_twice_distinct_ids
    (tb : Table) (rqs : list request)
    (urandom1 urandom2 : Z) (utcnow1 utcnow2 : datetime)
    (interaction1 interaction2 : InteractionCreate)
    (r1 r2 : Interaction) (tb1 tb2 : Table) :
  create_interaction tb urandom1 utcnow1 interaction1 = (Return r1, tb1) ->
  create_interaction (serve tb1 rqs) urandom2 utcnow2 interaction2 = (Return r2, tb2) ->
  interaction_id r1 <> interaction_id r2.
Proof.
  intros H1 H2 Heq.
  destruct (decide (uuid.str (uuid.uuid4 urandom1) ∈ primary_keys tb)) as [Hin|Hout];
    [rewrite create_interaction_collision in H1 by assumption; discriminate H1|].
  rewrite create_interaction_fresh in H1 by assumption. injection H1 as <- <-.
  destruct (decide (uuid.str (uuid.uuid4 urandom2)
                      ∈ primary_keys (serve (tb ++ [created (uuid.str (uuid.uuid4 urandom1)) utcnow1 interaction1]) rqs)))
    as [Hin2|Hout2];
    [rewrite create_interaction_collision in H2 by assumption; discriminate H2|].
  rewrite create_interaction_fresh in H2 by assumption. injection H2 as <- _.
  apply Hout2. cbn [created interaction_id] in Heq. rewrite <- Heq.
  apply serve_keeps_key. unfold primary_keys. rewrite fmap_app.
  apply elem_of_app. right. apply list_elem_of_singleton. reflexivity.
Qed.

(** X2.  The record a create request returned is listed afterwards by
    exactly the list requests whose feedback filter is absent or 0 and whose
    processed filter is absent or false. *)
Theorem create_interaction_then_listed
    (tb : Table) (urandom : Z) (utcnow : datetime) (interaction : InteractionCreate)
    (r : Interaction) (tb' : Table) (ff : option Z) (pf : option bool)
    (l : list Interaction) :
  create_interaction tb urandom utcnow interaction = (Return r, tb') ->
  get_interactions tb' ff pf = Return l ->
  (r ∈ l <-> (ff = None \/ ff = Some 0) /\ (pf = None \/ pf = Some false)).
Proof.
  intros Hc Hl.
  destruct (decide (uuid.str (uuid.uuid4 urandom) ∈ primary_keys tb)) as [Hin|Hout];
    [rewrite create_interaction_collision in Hc by assumption; discriminate Hc|].
  rewrite create_interaction_fresh in Hc by assumption. injection Hc as <- <-.
  rewrite get_interactions_passes in Hl. injection Hl as <-.
  rewrite list_elem_of_filter. unfold passes.
  cbn [created feedback processed_for_training].
  split.
  - intros [[Hf Hp] _]. split.
    + destruct ff as [v|]; [right; now subst | now left].
    + destruct pf as [v|]; [right; now subst | now left].
  - intros [Hf Hp]. split.
    + split.
      * destruct Hf as [-> | ->]; [exact I | reflexivity].
      * destruct Hp as [-> | ->]; [exact I | reflexivity].
    + apply elem_of_app. right. apply list_elem_of_singleton. reflexivity.
Qed.

(** X3.  After a feedback update that returned a record, a list request
    filtered on feedback returns a record with the updated id exactly when
    the filter value is the new score. *)
Theorem update_feedback_then_listed
    (tb : Table) (k : string) (feedback_update : FeedbackUpdate)
    (r' : Interaction) (tb' : Table) (v : Z) (l : list Interaction) :
  update_feedback tb k feedback_update = (Return r', tb') ->
  get_interactions tb' (Some v) None = Return l ->
  (k ∈ primary_keys l <-> v = feedback_score feedback_update).
Proof.
  intros Hu Hl.
  destruct (Integer_holds engine (feedback_score feedback_update)) eqn:Hfits;
    [|rewrite update_feedback_refused in Hu by assumption; discriminate Hu].
  rewrite update_feedback_unfold in Hu by assumption.
  assert (k ∈ primary_keys tb) as Hk.
  { destruct (decide (k ∈ primary_keys tb)) as [Hk|Hk]; [exact Hk|].
    rewrite update_absent in Hu by assumption. discriminate Hu. }
  assert (tb' = (sql.rewrite_rows tb (sql.interaction_id_eq k)
                   (sql.set_feedback (feedback_score feedback_update))).1) as ->
    by (cbv zeta in Hu; now injection Hu).
  clear Hu. rewrite get_interactions_passes in Hl. injection Hl as <-.
  rewrite update_table.
  unfold primary_keys. rewrite list_elem_of_fmap.
  split.
  - intros (r0 & Hk' & Hin). apply list_elem_of_filter in Hin as [[Hf _] Hin].
    apply list_elem_of_fmap in Hin as (r & Hr & Hin).
    destruct (sql.holds (sql.interaction_id_eq k) r) eqn:E.
    + rewrite <- Hf, Hr. reflexivity.
    + exfalso. apply Bool.not_true_iff_false in E. apply E.
      apply holds_id_eq. congruence.
  - intros ->. apply list_elem_of_fmap in Hk as (r & -> & Hin).
    exists (sql.assign (sql.set_feedback (feedback_score feedback_update)) r).
    split; [reflexivity|]. apply list_elem_of_filter. split; [now split|].
    apply list_elem_of_fmap. exists r. split; [|assumption].
    replace (sql.holds _ r) with true; [reflexivity|].
    symmetry. now apply holds_id_eq.
Qed.

(** X4.  A feedback update and a processed update, on the same id or on
    two ids, leave the same table whichever is served first. *)
Theorem update_feedback_mark_as_processed_commute
    (tb : Table) (k1 k2 : string) (feedback_update : FeedbackUpdate)
    (processed_update : ProcessedUpdate) :
  (mark_as_processed (update_feedback tb k1 feedback_update).2 k2 processed_update).2
  = (update_feedback (mark_as_processed tb k2 processed_update).2 k1 feedback_update).2.
Proof.
  rewrite !update_feedback_table, !mark_as_processed_unfold. cbn [snd].
  destruct (Integer_holds engine (feedback_score feedback_update));
    [|reflexivity].
  rewrite !update_table, <- !list_fmap_compose.
  apply list_fmap_ext. intros i r _. cbn [compose].
  destruct (sql.holds (sql.interaction_id_eq k1) r) eqn:E1;
    destruct (sql.holds (sql.interaction_id_eq k2) r) eqn:E2;
    rewrite ?holds_id_assign, ?E1, ?E2; reflexivity.
Qed.

(** X5.  The last update wins.  A second processed update of an id gives
    the response and the table it would have given without the first; so
    does a second feedback update whose score the integer type of the column
    holds, whether the first was refused or not. *)
Theorem update_last_write_wins
    (tb : Table) (k : string) (fu1 fu2 : FeedbackUpdate) (pu1 pu2 : ProcessedUpdate) :
  mark_as_processed (mark_as_processed tb k pu1).2 k pu2
  = mark_as_processed tb k pu2
  /\ (Integer_holds engine (feedback_score fu2) = true ->
      update_feedback (update_feedback tb k fu1).2 k fu2 = update_feedback tb k fu2).
Proof.
  split.
  - rewrite !mark_as_processed_unfold. cbv zeta. cbn [snd].
    rewrite update_overwrite by reflexivity. reflexivity.
  - intros Hfits. rewrite update_feedback_table.
    destruct (Integer_holds engine (feedback_score fu1)); [|reflexivity].
    rewrite !update_feedback_unfold by assumption. cbv zeta.
    rewrite update_overwrite by reflexivity. reflexivity.
Qed.


(** X7.  The primary-key constraint is kept by every sequence of requests:
    no two stored records ever share an id. *)
Theorem serve_keeps_primary_key (tb : Table) (rqs : list request) :
  pk_unique tb ->
  pk_unique (serve tb rqs)
  /\ (forall i j r1 r2,
        serve tb rqs !! i = Some r1 -> serve tb rqs !! j = Some r2 ->
        interaction_id r1 = interaction_id r2 -> i = j).
Proof.
  intros Hnd. pose proof (serve_pk_unique rqs tb Hnd) as Hnd'.
  split; [exact Hnd'|]. intros i j r1 r2 Hi Hj Heq.
  apply (NoDup_lookup _ i j (interaction_id r1) Hnd');
    unfold primary_keys; rewrite list_lookup_fmap.
  - now rewrite Hi.
  - rewrite Hj. simpl. now rewrite Heq.
Qed.

(** ** Which ids are stored, and what a request answers *)








(** X11.  A request that is not answered with 200 leaves the table as it
    was. *)
Theorem app_error_keeps_table (tb : Table) (rq : request) :
  status (app tb rq).1 <> 200 -> (app tb rq).2 = tb.
Proof.
  destruct rq as [u now ci | ff pf | k fu | k pu]; cbn [app].
  - destruct (decide (uuid.str (uuid.uuid4 u) ∈ primary_keys tb)) as [Hin|Hout].
    + now rewrite create_interaction_collision by assumption.
    + rewrite create_interaction_fresh by assumption. intros H. now contradict H.
  - reflexivity.
  - destruct (Integer_holds engine (feedback_score fu)) eqn:Hfits;
      [|now rewrite update_feedback_refused by assumption].
    rewrite update_feedback_unfold by assumption. cbv zeta. cbn [fst snd].
    destruct (decide (k ∈ primary_keys tb)) as [Hk|Hk].
    + destruct (update_stored_returns tb k
                  (sql.set_feedback (feedback_score fu)) Hk) as (r & rest & _ & _ & ->).
      intros H. now contradict H.
    + now rewrite update_absent by assumption.
  - rewrite mark_as_processed_unfold. cbv zeta. cbn [fst snd].
    destruct (decide (k ∈ primary_keys tb)) as [Hk|Hk].
    + destruct (update_stored_returns tb k
                  (sql.set_processed_for_training (pu_processed_for_training pu)) Hk)
        as (r & rest & _ & _ & ->).
      intros H. now contradict H.
    + now rewrite update_absent by assumption.
Qed.

End service.

(** ** The text of a generated id *)

Lemma get_string_of_list_ascii (l : list ascii) :
  forall n : nat, String.get n (string_of_list_ascii l) = l !! n.
Proof.
  induction l as [|c l IH]; intros [|n]; cbn; try reflexivity. apply IH.
Qed.

(** The digit at a position of ['%0nx' % v]. *)
Lemma hex_fixed_lookup (n : nat) : forall (v : Z) (j : nat),
  (j < n)%nat ->
  uuid.hex_fixed n v !! j
  = Some (uuid.hex_digit ((v / 16 ^ Z.of_nat (n - 1 - j)) mod 16)).
Proof.
  induction n as [|n IH]; intros v j Hj; [lia|].
  cbn [uuid.hex_fixed].
  destruct (decide (j = n)) as [->|Hne].
  - rewrite lookup_app_r by (rewrite hex_fixed_length; lia).
    rewrite hex_fixed_length, Nat.sub_diag.
    replace (S n - 1 - n)%nat with 0%nat by lia.
    now rewrite Z.pow_0_r, Z.div_1_r.
  - rewrite lookup_app_l by (rewrite hex_fixed_length; lia).
    rewrite IH by lia. do 2 f_equal.
    replace (Z.of_nat (S n - 1 - j)) with (Z.succ (Z.of_nat (n - 1 - j))) by lia.
    rewrite Z.pow_succ_r by lia. rewrite Z.div_div by lia. reflexivity.
Qed.

(** Where the characters of [uuid.str] come from. *)
Lemma uuid_str_layout (hex : list ascii) :
  length hex = 32%nat ->
  let l := take 8 hex ++ "-"%char :: take 4 (drop 8 hex) ++ "-"%char
             :: take 4 (drop 12 hex) ++ "-"%char :: take 4 (drop 16 hex)
             ++ "-"%char :: drop 20 hex in
  l !! 8%nat = Some "-"%char /\ l !! 13%nat = Some "-"%char
  /\ l !! 18%nat = Some "-"%char /\ l !! 23%nat = Some "-"%char
  /\ l !! 14%nat = hex !! 12%nat /\ l !! 19%nat = hex !! 16%nat.
Proof.
  intros Hlen.
  do 32 (destruct hex as [|? hex]; [discriminate Hlen|]).
  destruct hex; [|discriminate Hlen]. cbn. now repeat split.
Qed.

(** The version bits: the hex digit of weight [16^19] is 4. *)
Lemma uuid4_version_digit (urandom : Z) :
  (uuid.uuid4 urandom / 16 ^ 19) mod 16 = 4.
Proof.
  change (16 ^ 19) with (2 ^ 76). change 16 with (2 ^ 4).
  rewrite <- Z.shiftr_div_pow2, <- Z.land_ones by lia.
  unfold uuid.uuid4, uuid.UUID.
  rewrite Z.shiftr_lor, Z.shiftr_land, Z.land_lor_distr_l, <- Z.land_assoc.
  change (Z.land (Z.shiftr (Z.lnot (Z.shiftl 0xf000 64)) 76) (Z.ones 4)) with 0.
  rewrite Z.land_0_r. reflexivity.
Qed.

(** The variant bits: the hex digit of weight [16^15] is 8, 9, 10 or 11. *)
Lemma uuid4_variant_digit (urandom : Z) :
  8 <= (uuid.uuid4 urandom / 16 ^ 15) mod 16 <= 11.
Proof.
  change (16 ^ 15) with (2 ^ 60). change 16 with (2 ^ 4).
  rewrite <- Z.shiftr_div_pow2, <- Z.land_ones by lia.
  unfold uuid.uuid4, uuid.UUID.
  rewrite !Z.shiftr_lor, !Z.shiftr_land, !Z.shiftr_lor, !Z.shiftr_land.
  rewrite !Z.land_lor_distr_l, <- !Z.land_assoc.
  change (Z.land (Z.shiftr (Z.shiftl 4 76) 60) (Z.ones 4)) with 0.
  change (Z.land (Z.shiftr (Z.lnot (Z.shiftl 0xf000 64)) 60) (Z.ones 4))
    with (Z.ones 4).
  change (Z.land (Z.shiftr (Z.shiftl 0x8000 48) 60) (Z.ones 4)) with 8.
  change (Z.land (Z.shiftr (Z.lnot (Z.shiftl 0xc000 48)) 60) (Z.ones 4))
    with (Z.ones 2).
  rewrite Z.lor_0_r, Z.land_ones, Z.shiftr_div_pow2 by lia.
  pose proof (Z.mod_pos_bound (urandom / 2 ^ 60) (2 ^ 2) eq_refl) as Hb.
  generalize dependent ((urandom / 2 ^ 60) mod 2 ^ 2). intros m Hb.
  change (2 ^ 2) with 4 in Hb.
  assert (m = 0 \/ m = 1 \/ m = 2 \/ m = 3) as [-> | [-> | [-> | ->]]] by lia;
    split; intros H; vm_compute in H; discriminate H.
Qed.

Lemma hex_digit_in_hexdigits (d : Z) :
  0 <= d < 16 -> uuid.hex_digit d ∈ uuid.hexdigits.
Proof.
  intros Hd. unfold uuid.hex_digit. apply list_elem_of_In, nth_In.
  change (length uuid.hexdigits) with 16%nat. lia.
Qed.

Lemma hex_fixed_hexdigits (n : nat) : forall v,
  Forall (fun c => c ∈ uuid.hexdigits) (uuid.hex_fixed n v).
Proof.
  induction n as [|n IH]; intros v; cbn [uuid.hex_fixed]; [constructor|].
  apply Forall_app. split; [apply IH|]. constructor; [|constructor].
  apply hex_digit_in_hexdigits. apply Z.mod_pos_bound. lia.
Qed.

(** Every position of the text: a dash at 8, 13, 18 and 23, a character of
    the hex string everywhere else. *)
Lemma uuid_str_layout_chars (hex : list ascii) (P : ascii -> Prop) :
  length hex = 32%nat -> Forall P hex ->
  let l := take 8 hex ++ "-"%char :: take 4 (drop 8 hex) ++ "-"%char
             :: take 4 (drop 12 hex) ++ "-"%char :: take 4 (drop 16 hex)
             ++ "-"%char :: drop 20 hex in
  forall j : nat, (j < 36)%nat ->
    exists c, l !! j = Some c
              /\ if bool_decide (j ∈ [8; 13; 18; 23]%nat)
                 then c = "-"%char else P c.
Proof.
  intros Hlen HP.
  do 32 (destruct hex as [|? hex]; [discriminate Hlen|]).
  destruct hex; [|discriminate Hlen].
  repeat match goal with
         | H : Forall _ (_ :: _) |- _ => apply Forall_cons in H as [? H]
         end.
  intros l j Hj.
  do 36 (destruct j as [|j];
         [eexists; split; [reflexivity|];
          vm_compute; first [reflexivity | assumption] |]).
  lia.
Qed.

(** X12.  The id of a create request is a version-4 UUID in its textual
    form, whatever the random bytes: 36 characters; at positions 8, 13, 18
    and 23 a dash and at every other position a lower-case hex digit; the
    version digit 4 at position 14 and a variant digit 8, 9, a or b at
    position 19. *)
Theorem uuid4_str_format (urandom : Z) :
  let s := uuid.str (uuid.uuid4 urandom) in
  String.length s = 36%nat
  /\ String.get 8 s = Some "-"%char
  /\ String.get 13 s = Some "-"%char
  /\ String.get 18 s = Some "-"%char
  /\ String.get 23 s = Some "-"%char
  /\ String.get 14 s = Some "4"%char
  /\ (exists c, String.get 19 s = Some c
                /\ c ∈ ["8"%char; "9"%char; "a"%char; "b"%char])
  /\ (forall j : nat, (j < 36)%nat ->
        exists c, String.get j s = Some c
                  /\ if bool_decide (j ∈ [8; 13; 18; 23]%nat)
                     then c = "-"%char else c ∈ uuid.hexdigits).
Proof.
  intros s. split; [apply uuid_str_length|].
  pose proof (uuid_str_layout (uuid.hex_fixed 32 (uuid.uuid4 urandom))
                (hex_fixed_length 32 _)) as (H8 & H13 & H18 & H23 & H14 & H19).
  pose proof (uuid_str_layout_chars (uuid.hex_fixed 32 (uuid.uuid4 urandom))
                (fun c => c ∈ uuid.hexdigits) (hex_fixed_length 32 _)
                (hex_fixed_hexdigits 32 _)) as Hall.
  cbv zeta in Hall.
  unfold s, uuid.str.
  repeat (split; [rewrite get_string_of_list_ascii; assumption|]).
  split; [|split].
  - rewrite get_string_of_list_ascii, H14, hex_fixed_lookup by lia.
    change (Z.of_nat (32 - 1 - 12)) with 19. now rewrite uuid4_version_digit.
  - rewrite get_string_of_list_ascii, H19, hex_fixed_lookup by lia.
    change (Z.of_nat (32 - 1 - 16)) with 15.
    pose proof (uuid4_variant_digit urandom) as Hv.
    eexists. split; [reflexivity|].
    generalize dependent ((uuid.uuid4 urandom / 16 ^ 15) mod 16). intros d Hd.
    assert (d = 8 \/ d = 9 \/ d = 10 \/ d = 11) as [-> | [-> | [-> | ->]]] by lia;
      apply (bool_decide_unpack _); vm_compute; exact I.
  - intros j Hj. rewrite get_string_of_list_ascii. now apply Hall.
Qed.

(** *** The text determines the UUID *)

Lemma hex_digit_inj (d1 d2 : Z) :
  0 <= d1 < 16 -> 0 <= d2 < 16 -> uuid.hex_digit d1 = uuid.hex_digit d2 -> d1 = d2.
Proof.
  intros H1 H2 He. unfold uuid.hex_digit in He.
  assert (List.NoDup uuid.hexdigits) as Hnd.
  { apply NoDup_ListNoDup. apply (bool_decide_unpack _). vm_compute. exact I. }
  apply (proj1 (NoDup_nth uuid.hexdigits "0"%char) Hnd) in He;
    [lia | change (length uuid.hexdigits) with 16%nat; lia ..].
Qed.

Lemma hex_fixed_inj (n : nat) : forall a b : Z,
  0 <= a < 16 ^ Z.of_nat n -> 0 <= b < 16 ^ Z.of_nat n ->
  uuid.hex_fixed n a = uuid.hex_fixed n b -> a = b.
Proof.
  induction n as [|n IH]; intros a b Ha Hb He.
  - change (16 ^ Z.of_nat 0) with 1 in *. lia.
  - cbn [uuid.hex_fixed] in He. apply app_inj_tail in He as [Hq Hr].
    replace (Z.of_nat (S n)) with (Z.succ (Z.of_nat n)) in * by lia.
    rewrite Z.pow_succ_r in * by lia.
    apply hex_digit_inj in Hr; [|apply Z.mod_pos_bound; lia ..].
    apply IH in Hq.
    + rewrite (Z.div_mod a 16), (Z.div_mod b 16) by lia. congruence.
    + split; [apply Z.div_pos; lia | apply Z.div_lt_upper_bound; lia].
    + split; [apply Z.div_pos; lia | apply Z.div_lt_upper_bound; lia].
Qed.

Lemma uuid_str_layout_inj (h1 h2 : list ascii) :
  length h1 = 32%nat -> length h2 = 32%nat ->
  take 8 h1 ++ "-"%char :: take 4 (drop 8 h1) ++ "-"%char
    :: take 4 (drop 12 h1) ++ "-"%char :: take 4 (drop 16 h1)
    ++ "-"%char :: drop 20 h1
  = take 8 h2 ++ "-"%char :: take 4 (drop 8 h2) ++ "-"%char
      :: take 4 (drop 12 h2) ++ "-"%char :: take 4 (drop 16 h2)
      ++ "-"%char :: drop 20 h2 ->
  h1 = h2.
Proof.
  intros L1 L2.
  do 32 (destruct h1 as [|? h1]; [discriminate L1|]).
  destruct h1; [|discriminate L1].
  do 32 (destruct h2 as [|? h2]; [discriminate L2|]).
  destruct h2; [|discriminate L2].
  cbn. intros He. injection He. intros. subst. reflexivity.
Qed.

Lemma uuid_str_inj (x y : Z) :
  0 <= x < 2 ^ 128 -> 0 <= y < 2 ^ 128 -> uuid.str x = uuid.str y -> x = y.
Proof.
  intros Hx Hy He. unfold uuid.str in He.
  apply (f_equal list_ascii_of_string) in He.
  rewrite !list_ascii_of_string_of_list_ascii in He.
  apply uuid_str_layout_inj in He; [|apply hex_fixed_length ..].
  apply (hex_fixed_inj 32); [exact Hx | exact Hy | exact He].
Qed.

(** A UUID made of 128-bit input has 128 bits. *)
Lemma uuid4_range (urandom : Z) :
  0 <= urandom < 2 ^ 128 -> 0 <= uuid.uuid4 urandom < 2 ^ 128.
Proof.
  intros Hu.
  assert (Z.shiftr urandom 128 = 0) as Hs.
  { rewrite Z.shiftr_div_pow2 by lia. apply Z.div_small. exact Hu. }
  assert (Z.shiftr (uuid.uuid4 urandom) 128 = 0) as Hs'.
  { unfold uuid.uuid4, uuid.UUID.
    rewrite !Z.shiftr_lor, !Z.shiftr_land, !Z.shiftr_lor, !Z.shiftr_land, Hs.
    reflexivity. }
  rewrite Z.shiftr_div_pow2 in Hs' by lia.
  apply Z.div_small_iff in Hs'; lia.
Qed.

(** [uuid4] keeps the bits of its input outside the six it forces. *)
Lemma uuid4_free_bits (urandom : Z) :
  uuid.uuid4 urandom
  = Z.lor (Z.land urandom
             (Z.land (Z.lnot (Z.shiftl 0xc000 48)) (Z.lnot (Z.shiftl 0xf000 64))))
      (Z.lor (Z.shiftl 0x8000 48) (Z.shiftl 4 76)).
Proof.
  unfold uuid.uuid4, uuid.UUID.
  rewrite Z.land_lor_distr_l, <- Z.land_assoc, <- Z.lor_assoc. reflexivity.
Qed.

(** X13.  The text of an id loses nothing of the UUID: two 128-bit values
    with the same text are equal.  Hence two draws of sixteen random bytes
    give the same id exactly when they agree on every bit but the six that
    [uuid4] forces. *)
Theorem uuid4_str_same_iff :
  (forall x y : Z,
      0 <= x < 2 ^ 128 -> 0 <= y < 2 ^ 128 -> uuid.str x = uuid.str y -> x = y)
  /\ (forall a b : Z,
        0 <= a < 2 ^ 128 -> 0 <= b < 2 ^ 128 ->
        (uuid.str (uuid.uuid4 a) = uuid.str (uuid.uuid4 b)
         <-> Z.land a (Z.land (Z.lnot (Z.shiftl 0xc000 48))
                         (Z.lnot (Z.shiftl 0xf000 64)))
             = Z.land b (Z.land (Z.lnot (Z.shiftl 0xc000 48))
                           (Z.lnot (Z.shiftl 0xf000 64))))).
Proof.
  split; [exact uuid_str_inj|].
  intros a b Ha Hb. split.
  - intros He. apply uuid_str_inj in He; [|now apply uuid4_range ..].
    rewrite !uuid4_free_bits in He.
    assert (Z.land (Z.lor (Z.shiftl 0x8000 48) (Z.shiftl 4 76))
              (Z.land (Z.lnot (Z.shiftl 0xc000 48)) (Z.lnot (Z.shiftl 0xf000 64)))
            = 0) as Hdisjoint by reflexivity.
    revert He Hdisjoint.
    generalize (Z.land (Z.lnot (Z.shiftl 0xc000 48)) (Z.lnot (Z.shiftl 0xf000 64))).
    generalize (Z.lor (Z.shiftl 0x8000 48) (Z.shiftl 4 76)).
    intros forced free He Hdisjoint.
    apply (f_equal (fun x => Z.land x free)) in He.
    rewrite !Z.land_lor_distr_l, <- !Z.land_assoc, !Z.land_diag, Hdisjoint in He.
    now rewrite !Z.lor_0_r in He.
  - intros He. rewrite !uuid4_free_bits. now rewrite He.
Qed.

(** ** On the engines: the scenario, the refused scores, and instances *)

Example scenario_feedback :
  update_feedback postgresql [hi_hello_row] hi_hello_id {| feedback_score := 5 |}
  = (Return (sql.assign (sql.set_feedback 5) hi_hello_row),
     [sql.assign (sql.set_feedback 5) hi_hello_row]).
Proof. reflexivity. Qed.

Example scenario_history :
  serve postgresql [] history = [sql.assign (sql.set_feedback 5) hi_hello_row]
  /\ generated_ids history = [hi_hello_id; hi_hello_id].
Proof. split; reflexivity. Qed.

(** C3 as stated does not hold of every integer score: a stored id and a
    score one past the column's range, on either engine.  The update raises,
    no record is returned and the row keeps its feedback. *)
Lemma update_feedback_out_of_range_refused :
  pk_unique [hi_hello_row]
  /\ [hi_hello_row] !! 0%nat = Some hi_hello_row
  /\ update_feedback postgresql [hi_hello_row] (interaction_id hi_hello_row)
       {| feedback_score := 2 ^ 31 |}
     = (Raise OutOfRange, [hi_hello_row])
  /\ update_feedback sqlite [hi_hello_row] (interaction_id hi_hello_row)
       {| feedback_score := 2 ^ 63 |}
     = (Raise OutOfRange, [hi_hello_row])
  /\ ~ (exists r' tb',
          update_feedback postgresql [hi_hello_row] (interaction_id hi_hello_row)
            {| feedback_score := 2 ^ 31 |}
          = (Return r', tb')
          /\ feedback r' = 2 ^ 31).
Proof.
  split; [unfold pk_unique; apply (bool_decide_unpack _); vm_compute; exact I|].
  split; [reflexivity|]. split; [vm_compute; reflexivity|].
  split; [vm_compute; reflexivity|].
  intros (r' & tb' & Hu & _). vm_compute in Hu. discriminate Hu.
Qed.

(** C4 as stated does not hold of every feedback update: an id that is not
    stored and a score outside the column's range, on either engine.  The
    answer is 500, not 404. *)
Lemma update_feedback_unknown_id_out_of_range :
  (interaction_id thanks_welcome_row ∉ primary_keys [hi_hello_row])
  /\ update_feedback postgresql [hi_hello_row] (interaction_id thanks_welcome_row)
       {| feedback_score := 2 ^ 63 |}
     = (Raise OutOfRange, [hi_hello_row])
  /\ update_feedback sqlite [hi_hello_row] (interaction_id thanks_welcome_row)
       {| feedback_score := 2 ^ 63 |}
     = (Raise OutOfRange, [hi_hello_row])
  /\ status (update_feedback postgresql [hi_hello_row]
               (interaction_id thanks_welcome_row)
               {| feedback_score := 2 ^ 63 |}).1 <> 404.
Proof.
  split; [apply (bool_decide_unpack _); vm_compute; exact I|].
  split; [vm_compute; reflexivity|]. split; [vm_compute; reflexivity|].
  vm_compute. discriminate.
Qed.




Lemma update_feedback_changes_only_feedback_witness :
  exists r' tb',
    update_feedback postgresql [hi_hello_row; thanks_welcome_row]
      (interaction_id thanks_welcome_row) {| feedback_score := -3 |}
    = (Return r', tb')
    /\ feedback r' = -3
    /\ interaction_id r' = interaction_id thanks_welcome_row
    /\ user_query r' = user_query thanks_welcome_row
    /\ bot_response r' = bot_response thanks_welcome_row
    /\ timestamp r' = timestamp thanks_welcome_row
    /\ processed_for_training r' = processed_for_training thanks_welcome_row
    /\ tb' = <[1%nat := r']> [hi_hello_row; thanks_welcome_row].
Proof.
  apply (update_feedback_changes_only_feedback postgresql
           [hi_hello_row; thanks_welcome_row]
           1%nat thanks_welcome_row {| feedback_score := -3 |}).
  - unfold pk_unique. apply (bool_decide_unpack _). vm_compute. exact I.
  - reflexivity.
  - vm_compute. reflexivity.
Defined.

Lemma update_unknown_id_not_found_witness :
  mark_as_processed postgresql [hi_hello_row] (interaction_id thanks_welcome_row)
    {| pu_processed_for_training := true |}
  = (Raise (HTTPException 404 "Interaction not found."), [hi_hello_row])
  /\ status (mark_as_processed postgresql [hi_hello_row]
               (interaction_id thanks_welcome_row)
               {| pu_processed_for_training := true |}).1 = 404
  /\ (update_feedback postgresql [hi_hello_row] (interaction_id thanks_welcome_row)
        {| feedback_score := 1 |}).2 = [hi_hello_row]
  /\ update_feedback postgresql [hi_hello_row] (interaction_id thanks_welcome_row)
       {| feedback_score := 1 |}
     = (Raise (HTTPException 404 "Interaction not found."), [hi_hello_row])
  /\ status (update_feedback postgresql [hi_hello_row]
               (interaction_id thanks_welcome_row)
               {| feedback_score := 1 |}).1 = 404.
Proof.
  destruct (update_unknown_id_not_found postgresql [hi_hello_row]
              (interaction_id thanks_welcome_row) {| feedback_score := 1 |}
              {| pu_processed_for_training := true |})
    as (Hm & Hs & Ht & Hf).
  - apply (bool_decide_unpack _). vm_compute. exact I.
  - split; [exact Hm|]. split; [exact Hs|]. split; [exact Ht|].
    apply Hf. vm_compute. reflexivity.
Defined.

Lemma mark_as_processed_only_flag_idempotent_witness :
  let r' := {| interaction_id := hi_hello_id; user_query := "hi";
               bot_response := "hello"; feedback := 0;
               timestamp := 1700000000000000;
               processed_for_training := true |} in
  mark_as_processed postgresql [hi_hello_row; thanks_welcome_row] hi_hello_id
    {| pu_processed_for_training := true |}
  = (Return r', [r'; thanks_welcome_row])
  /\ mark_as_processed postgresql [r'; thanks_welcome_row] hi_hello_id
       {| pu_processed_for_training := true |}
     = (Return r', [r'; thanks_welcome_row]).
Proof.
  apply (mark_as_processed_only_flag_idempotent postgresql
           [hi_hello_row; thanks_welcome_row]
           0%nat hi_hello_row {| pu_processed_for_training := true |}).
  - unfold pk_unique. apply (bool_decide_unpack _). vm_compute. exact I.
  - reflexivity.
Defined.

Lemma update_leaves_other_rows_witness :
  (update_feedback postgresql [hi_hello_row; thanks_welcome_row] hi_hello_id
     {| feedback_score := 9 |}).2 !! 1%nat = Some thanks_welcome_row
  /\ (mark_as_processed postgresql [hi_hello_row; thanks_welcome_row] hi_hello_id
        {| pu_processed_for_training := true |}).2 !! 1%nat
     = Some thanks_welcome_row
  /\ length (update_feedback postgresql [hi_hello_row; thanks_welcome_row]
               hi_hello_id {| feedback_score := 9 |}).2
     = length [hi_hello_row; thanks_welcome_row]
  /\ length (mark_as_processed postgresql [hi_hello_row; thanks_welcome_row]
               hi_hello_id {| pu_processed_for_training := true |}).2
     = length [hi_hello_row; thanks_welcome_row].
Proof.
  apply (update_leaves_other_rows postgresql [hi_hello_row; thanks_welcome_row]
           hi_hello_id
           {| feedback_score := 9 |} {| pu_processed_for_training := true |}
           1%nat thanks_welcome_row).
  - reflexivity.
  - vm_compute. discriminate.
Defined.

Lemma serve_never_deletes_witness :
  (exists r', serve postgresql [hi_hello_row] history !! 0%nat = Some r'
              /\ same_identity hi_hello_row r')
  /\ interaction_id hi_hello_row
     ∈ primary_keys (serve postgresql [hi_hello_row] history)
  /\ (length [hi_hello_row]
      <= length (serve postgresql [hi_hello_row] history))%nat.
Proof.
  apply (serve_never_deletes postgresql [hi_hello_row] history 0%nat hi_hello_row).
  reflexivity.
Defined.

Lemma create_interaction_twice_distinct_ids_witness :
  interaction_id hi_hello_row <> interaction_id thanks_welcome_row.
Proof.
  apply (create_interaction_twice_distinct_ids postgresql [] (skipn 1 history)
           42 43 1700000000000000 1700000000000007 hi_hello thanks_welcome
           hi_hello_row thanks_welcome_row [hi_hello_row]
           [sql.assign (sql.set_feedback 5) hi_hello_row; thanks_welcome_row]).
  - reflexivity.
  - vm_compute. reflexivity.
Defined.

Lemma create_interaction_then_listed_witness :
  hi_hello_row ∈ [hi_hello_row]
  <-> ((None : option Z) = None \/ (None : option Z) = Some 0)
      /\ (Some false = None \/ Some false = Some false).
Proof.
  apply (create_interaction_then_listed [] 42 1700000000000000 hi_hello
           hi_hello_row [hi_hello_row] None (Some false) [hi_hello_row]).
  - reflexivity.
  - reflexivity.
Defined.

Lemma update_feedback_then_listed_witness :
  hi_hello_id ∈ primary_keys [sql.assign (sql.set_feedback 5) hi_hello_row]
  <-> 5 = feedback_score {| feedback_score := 5 |}.
Proof.
  apply (update_feedback_then_listed postgresql
           [hi_hello_row; thanks_welcome_row] hi_hello_id
           {| feedback_score := 5 |}
           (sql.assign (sql.set_feedback 5) hi_hello_row)
           [sql.assign (sql.set_feedback 5) hi_hello_row; thanks_welcome_row]
           5 [sql.assign (sql.set_feedback 5) hi_hello_row]).
  - vm_compute. reflexivity.
  - reflexivity.
Defined.

Lemma update_last_write_wins_witness :
  mark_as_processed postgresql
    (mark_as_processed postgresql [hi_hello_row] hi_hello_id
       {| pu_processed_for_training := true |}).2
    hi_hello_id {| pu_processed_for_training := false |}
  = mark_as_processed postgresql [hi_hello_row] hi_hello_id
      {| pu_processed_for_training := false |}
  /\ update_feedback postgresql
       (update_feedback postgresql [hi_hello_row] hi_hello_id
          {| feedback_score := 2 ^ 40 |}).2
       hi_hello_id {| feedback_score := 7 |}
     = update_feedback postgresql [hi_hello_row] hi_hello_id
         {| feedback_score := 7 |}.
Proof.
  destruct (update_last_write_wins postgresql [hi_hello_row] hi_hello_id
              {| feedback_score := 2 ^ 40 |} {| feedback_score := 7 |}
              {| pu_processed_for_training := true |}
              {| pu_processed_for_training := false |}) as [Hm Hf].
  split; [exact Hm|]. apply Hf. vm_compute. reflexivity.
Defined.

Lemma serve_keeps_primary_key_witness :
  pk_unique (serve postgresql [] history)
  /\ (forall i j r1 r2,
        serve postgresql [] history !! i = Some r1 ->
        serve postgresql [] history !! j = Some r2 ->
        interaction_id r1 = interaction_id r2 -> i = j).
Proof.
  apply (serve_keeps_primary_key postgresql [] history).
  unfold pk_unique. apply (bool_decide_unpack _). vm_compute. exact I.
Defined.


Lemma app_error_keeps_table_witness :
  (app postgresql [hi_hello_row]
     (POST_interactions 42 1700000000000003 thanks_welcome)).2
  = [hi_hello_row].
Proof.
  apply (app_error_keeps_table postgresql [hi_hello_row]
           (POST_interactions 42 1700000000000003 thanks_welcome)).
  vm_compute. discriminate.
Defined.

Lemma uuid4_str_format_witness :
  exists c, String.get 0 (uuid.str (uuid.uuid4 42)) = Some c
            /\ c ∈ uuid.hexdigits.
Proof.
  destruct (uuid4_str_format 42) as (_ & _ & _ & _ & _ & _ & _ & Hall).
  apply (Hall 0%nat). lia.
Defined.

Lemma uuid4_str_same_iff_witness :
  uuid.str (uuid.uuid4 42) = uuid.str (uuid.uuid4 (42 + 2 ^ 62))
  <-> Z.land 42 (Z.land (Z.lnot (Z.shiftl 0xc000 48)) (Z.lnot (Z.shiftl 0xf000 64)))
      = Z.land (42 + 2 ^ 62)
          (Z.land (Z.lnot (Z.shiftl 0xc000 48)) (Z.lnot (Z.shiftl 0xf000 64))).
Proof.
  apply (proj2 uuid4_str_same_iff 42 (42 + 2 ^ 62)); lia.
Defined.
